(** * test_project/main.c : the linkage smoke test of build_profiler

    The program under verification is

<<
    #include <stdio.h>
    #include "my_lib.h"

    int main() {
        printf("Starting the main application.\n");
        print_greeting();
        int answer = get_answer();
        printf("The retrieved answer is: %d\n", answer);
        return 0;
    }
>>

    [main] talks to two parties it does not define: the C standard
    library ([printf]) and the external library behind [my_lib.h]
    ([print_greeting], [get_answer]).  It is embedded as an interaction
    tree whose events are exactly these calls; the events are then given a
    meaning by a handler over a process state, parameterised by an
    arbitrary implementation of the external library. *)

From Stdlib Require Import ZArith List String Ascii Lia Bool.
From ITree Require Import ITree ITreeFacts Events.State Events.StateFacts.
From ITree Require Import Props.Finite Props.Leaf Props.EuttNoRet.
From Paco Require Import paco.
Import ListNotations.
Import ITreeNotations.
Local Open Scope itree_scope.
Local Open Scope string_scope.
Local Open Scope Z_scope.

(* ===================================================================== *)
(** * C data: [int], characters and strings *)
(* ===================================================================== *)

(** A C [int].  The program performs no arithmetic on the one [int] it
    handles, so no wrap-around is ever computed; every statement below
    holds for any integer, in particular between the two bounds. *)
Definition int : Type := Z.

Definition INT_MIN : Z := - 2 ^ 31.
Definition INT_MAX : Z := 2 ^ 31 - 1.

(** The newline character written [\n] in the C source. *)
Definition newline : ascii := ascii_of_nat 10.

Definition nl : string := String newline EmptyString.

(* ===================================================================== *)
(** * printf: the conversions used by the program *)
(* ===================================================================== *)

Module Stdio.

(** The character of a decimal digit [0 <= d < 10]. *)
Definition digit_char (d : Z) : ascii :=
  ascii_of_nat (48 + Z.to_nat d).

(** Digits of a non-negative number, least significant digit produced
    first and pushed in front of the accumulator, the way a C library
    fills its conversion buffer from the right. *)
Fixpoint utoa (fuel : nat) (n : Z) (acc : string) : string :=
  let acc' := String (digit_char (n mod 10)) acc in
  match fuel with
  | O => acc'
  | S fuel' => if n <? 10 then acc' else utoa fuel' (n / 10) acc'
  end.

(** A number below [2 ^ k] has at most [k] decimal digits. *)
Definition utoa_fuel (n : Z) : nat := Z.to_nat (Z.log2 n).

(** The [%d] conversion: a minus sign for negative values, then the
    digits of the magnitude. *)
Definition itoa (n : int) : string :=
  if n <? 0
  then String "-" (utoa (utoa_fuel (- n)) (- n) EmptyString)
  else utoa (utoa_fuel n) n EmptyString.

(** [format fmt args] expands the conversion specifications of [fmt].
    Only what the program uses is modelled: ordinary characters, [%d] and
    [%%].  A missing argument or any other specification is undefined or
    unmodelled behaviour: [None]. *)
Fixpoint format (fmt : string) (args : list int) : option string :=
  match fmt with
  | EmptyString => Some EmptyString
  | String "%" (String "d" rest) =>
      match args with
      | a :: args' => option_map (append (itoa a)) (format rest args')
      | [] => None
      end
  | String "%" (String "%" rest) =>
      option_map (String "%") (format rest args)
  | String "%" _ => None
  | String c rest => option_map (String c) (format rest args)
  end.

(** Reading a decimal numeral back, used to state what [%d] prints. *)
Definition digit_value (c : ascii) : option Z :=
  let k := Z.of_nat (nat_of_ascii c) in
  if (48 <=? k) && (k <=? 57) then Some (k - 48) else None.

Fixpoint atou (s : string) (acc : Z) : option Z :=
  match s with
  | EmptyString => Some acc
  | String c rest =>
      match digit_value c with
      | Some d => atou rest (10 * acc + d)
      | None => None
      end
  end.

Definition atoi (s : string) : option Z :=
  match s with
  | EmptyString => None
  | String "-" EmptyString => None
  | String "-" rest => option_map Z.opp (atou rest 0)
  | _ => atou s 0
  end.

(** A numeral that does not start with the digit zero. *)
Definition head_nonzero (s : string) : Prop :=
  match s with
  | EmptyString => False
  | String c _ => c <> "0"%char
  end.

(** A numeral is canonical when it has no superfluous leading zero and is
    not a negated zero. *)
Definition canonical (s : string) : bool :=
  match s with
  | String "-" (String "0" _) => false
  | String "0" (String _ _) => false
  | _ => true
  end.

(** [s] is the signed decimal representation of [n]: an optional minus
    sign followed by decimal digits, canonical, that reads back as [n]. *)
Definition signed_decimal (n : Z) (s : string) : Prop :=
  atoi s = Some n /\ canonical s = true.

End Stdio.

(* ===================================================================== *)
(** * The calls main makes: events *)
(* ===================================================================== *)

(** [int printf(const char *format, ...)], with the [int] arguments the
    conversions consume.  The answer of the event is printf's return
    value, which [main] discards. *)
Variant stdioE : Type -> Type :=
| Printf (fmt : string) (args : list int) : stdioE int.

(** The two functions declared by [my_lib.h]:
    [void print_greeting()] and [int get_answer()]. *)
Variant my_libE : Type -> Type :=
| Print_greeting : my_libE unit
| Get_answer : my_libE int.

Definition mainE : Type -> Type := stdioE +' my_libE.

(** One call made by the program, with its arguments. *)
Variant call : Type :=
| Call {T : Type} (e : mainE T).

(* ===================================================================== *)
(** * main *)
(* ===================================================================== *)

Definition main : itree mainE int :=
  trigger (Printf ("Starting the main application." ++ nl) []) ;;
  trigger Print_greeting ;;
  answer <- trigger Get_answer ;;
  trigger (Printf ("The retrieved answer is: %d" ++ nl) [answer]) ;;
  Ret 0.

(* ===================================================================== *)
(** * The process and the external library *)
(* ===================================================================== *)

(** What the operating system hands to the process.  [main] is declared
    [int main()]: it names none of it. *)
Record environment : Type := {
  argv : list string;
  environ : list (string * string)
}.

(** Modelled from the spec: [my_lib.h] and the library it declares are
    not part of the sources.  The spec (External interfaces) asks the
    library for "a no-argument procedure that produces some observable
    greeting output" and "a no-argument function returning an integer
    answer value".  The library may keep private state of any type [L] and
    may read the process environment; [None] stands for a call that does
    not return (it loops, or ends the process). *)
Class MyLib (L : Type) : Type := {
  print_greeting : environment -> L -> option (string * L);
  get_answer : environment -> L -> option (int * L)
}.

(** The state of a running process: the environment it was started in,
    what it has written to standard output so far, the private state of
    the library, and (ghost) the calls made so far, oldest first. *)
Record process (L : Type) : Type := {
  env : environment;
  stdout : string;
  lib_state : L;
  history : list call
}.

Arguments env {L} _.
Arguments stdout {L} _.
Arguments lib_state {L} _.
Arguments history {L} _.

Section Process.

Context {L : Type} {lib : MyLib L}.

Definition write (s : string) (p : process L) : process L :=
  {| env := env p; stdout := stdout p ++ s;
     lib_state := lib_state p; history := history p |}.

Definition set_lib_state (l : L) (p : process L) : process L :=
  {| env := env p; stdout := stdout p;
     lib_state := l; history := history p |}.

Definition record_call (c : call) (p : process L) : process L :=
  {| env := env p; stdout := stdout p;
     lib_state := lib_state p; history := history p ++ [c] |}.

(** printf appends the expanded format to standard output and returns
    the number of characters written.  Where [format] is undefined the
    call has no defined outcome: it never returns. *)
Definition h_stdio : stdioE ~> Monads.stateT (process L) (itree void1) :=
  fun _ e p =>
    match e with
    | Printf fmt args =>
        match Stdio.format fmt args with
        | Some s => Ret (write s p, Z.of_nat (String.length s))
        | None => ITree.spin
        end
    end.

(** A library call appends the library's output, updates the library's
    private state and answers with the function's result. *)
Definition h_my_lib : my_libE ~> Monads.stateT (process L) (itree void1) :=
  fun _ e p =>
    match e with
    | Print_greeting =>
        match print_greeting (env p) (lib_state p) with
        | Some (g, l') => Ret (set_lib_state l' (write g p), tt)
        | None => ITree.spin
        end
    | Get_answer =>
        match get_answer (env p) (lib_state p) with
        | Some (n, l') => Ret (set_lib_state l' p, n)
        | None => ITree.spin
        end
    end.

(** Every call is recorded, whatever it is, then carried out. *)
Definition handle : mainE ~> Monads.stateT (process L) (itree void1) :=
  fun T e p =>
    match e with
    | inl1 s => h_stdio T s (record_call (Call e) p)
    | inr1 l => h_my_lib T l (record_call (Call e) p)
    end.

Definition run_main (p : process L) : itree void1 (process L * int) :=
  interp_state handle main p.

(** A freshly started process: nothing written, nothing called. *)
Definition start (a : list string) (e : list (string * string)) (l : L)
  : process L :=
  {| env := {| argv := a; environ := e |}; stdout := EmptyString;
     lib_state := l; history := [] |}.

(** The C runtime calls [main] and hands its return value to [exit];
    the arguments and the environment are there, [main] takes none. *)
Definition run_program (a : list string) (e : list (string * string))
           (l : L) : itree void1 (process L * int) :=
  run_main (start a e l).

(** Observations of a finished run. *)
Definition output_of (r : process L * int) : string := stdout (fst r).
Definition exit_code_of (r : process L * int) : int := snd r.
Definition calls_of (r : process L * int) : list call := history (fst r).

End Process.

(** A run returns [r] when it reaches [Ret r] after finitely many silent
    steps. *)
Definition returns {R : Type} (t : itree void1 R) (r : R) : Prop :=
  t ≈ Ret r.

(** Running a closed computation for at most [fuel] steps. *)
Fixpoint run_fuel {R : Type} (fuel : nat) (t : itree void1 R) : option R :=
  match fuel with
  | O => None
  | S fuel' =>
      match observe t with
      | RetF r => Some r
      | TauF t' => run_fuel fuel' t'
      | VisF e _ => match e in void1 _ return option R with end
      end
  end.

(** The two lines main prints itself. *)
Definition starting_line : string :=
  "Starting the main application." ++ nl.

Definition answer_line (n : int) : string :=
  "The retrieved answer is: " ++ Stdio.itoa n ++ nl.

(** The behaviour as the spec words it (Component design): "print a fixed
    string, invoke an external no-argument procedure, invoke an external
    no-argument function returning an integer, print that integer using a
    fixed format, return a success code", written out call by call. *)
Definition specified_steps : itree mainE int :=
  Vis (inl1 (Printf ("Starting the main application." ++ nl) []))
    (fun _ =>
       Vis (inr1 Print_greeting)
         (fun _ =>
            Vis (inr1 Get_answer)
              (fun answer =>
                 Vis (inl1 (Printf ("The retrieved answer is: %d" ++ nl)
                              [answer]))
                   (fun _ => Ret 0)))).

(** The calls of a complete run in which [get_answer] returned [n]. *)
Definition calls_of_main (n : int) : list call :=
  [ Call (inl1 (Printf ("Starting the main application." ++ nl) []));
    Call (inr1 Print_greeting);
    Call (inr1 Get_answer);
    Call (inl1 (Printf ("The retrieved answer is: %d" ++ nl) [n])) ].

(** The [int] arguments handed over in a call. *)
Definition int_args_of (c : call) : list int :=
  match c with
  | @Call T e =>
      match e with
      | inl1 (Printf _ args) => args
      | inr1 _ => []
      end
  end.

(** The process after the first line has been printed. *)
Definition greeted {L : Type} (p : process L) : process L :=
  write starting_line
    (record_call
       (Call (inl1 (Printf ("Starting the main application." ++ nl) []))) p).

(** The state in which a complete run of [main] leaves the process. *)
Definition finished {L : Type} (p : process L) (g : string) (n : int) (l : L)
  : process L :=
  {| env := env p;
     stdout := stdout p ++ starting_line ++ g ++ answer_line n;
     lib_state := l;
     history := history p ++ calls_of_main n |}.

(** What an observer of a finished run sees: its output and exit code. *)
Definition same_observation {L : Type} (r1 r2 : process L * int) : Prop :=
  output_of r1 = output_of r2 /\ exit_code_of r1 = exit_code_of r2.

(** The library behaves identically in two runs started in [p1] and [p2]:
    [print_greeting] returns in both or in neither and writes the same
    greeting, and so does [get_answer] with the same answer. *)
Definition same_behaviour {L : Type} {lib : MyLib L} (p1 p2 : process L)
  : Prop :=
  match print_greeting (env p1) (lib_state p1),
        print_greeting (env p2) (lib_state p2) with
  | Some (g1, l1), Some (g2, l2) =>
      g1 = g2 /\
      match get_answer (env p1) l1, get_answer (env p2) l2 with
      | Some (n1, _), Some (n2, _) => n1 = n2
      | None, None => True
      | _, _ => False
      end
  | None, None => True
  | _, _ => False
  end.

(* ===================================================================== *)
(** * printf as a parameter *)
(* ===================================================================== *)

(** [main] calls printf as a statement: the value printf returns is
    dropped, and nothing in [main] looks at what was written.  To say what
    that means, the behaviour of printf is made a parameter: what a call
    appends to standard output and what it returns, or [None] when the call
    does not return. *)
Definition printf_behaviour : Type :=
  string -> list int -> option (string * int).

(** printf as modelled above: the expanded format is written, its length
    returned. *)
Definition standard_printf : printf_behaviour :=
  fun fmt args =>
    option_map (fun s => (s, Z.of_nat (String.length s)))
               (Stdio.format fmt args).

(** printf on a stream that takes no output: nothing is written and a
    negative value is returned. *)
Definition failing_printf : printf_behaviour :=
  fun _ _ => Some (EmptyString, -1).

Section ProcessWith.

Context {L : Type} {lib : MyLib L}.

Variable pf : printf_behaviour.

Definition h_stdio_with : stdioE ~> Monads.stateT (process L) (itree void1) :=
  fun _ e p =>
    match e with
    | Printf fmt args =>
        match pf fmt args with
        | Some (s, c) => Ret (write s p, c)
        | None => ITree.spin
        end
    end.

Definition handle_with : mainE ~> Monads.stateT (process L) (itree void1) :=
  fun T e p =>
    match e with
    | inl1 s => h_stdio_with T s (record_call (Call e) p)
    | inr1 l => h_my_lib T l (record_call (Call e) p)
    end.

Definition run_main_with (p : process L) : itree void1 (process L * int) :=
  interp_state handle_with main p.

End ProcessWith.

(* ===================================================================== *)
(** * Reading the answer off the output *)
(* ===================================================================== *)

Definition blank : ascii := " "%char.

(** The text after the last blank of [s], if [s] has a blank. *)
Fixpoint after_last_blank (s : string) : option string :=
  match s with
  | EmptyString => None
  | String c rest =>
      match after_last_blank rest with
      | Some t => Some t
      | None => if Ascii.eqb c blank then Some rest else None
      end
  end.

(** [s] without its final newline, if it ends in one. *)
Fixpoint chomp (s : string) : string :=
  match s with
  | EmptyString => EmptyString
  | String c EmptyString =>
      if Ascii.eqb c newline then EmptyString else s
  | String c rest => String c (chomp rest)
  end.

(** What a test that inspects the output does: take the last
    blank-separated field, drop the newline, read the number. *)
Definition answer_of_output (out : string) : option Z :=
  match after_last_blank out with
  | Some t => Stdio.atoi (chomp t)
  | None => None
  end.

(** No character of [s] is a blank. *)
Fixpoint no_blank (s : string) : bool :=
  match s with
  | EmptyString => true
  | String c rest => negb (Ascii.eqb c blank) && no_blank rest
  end.

(* ===================================================================== *)
(** * Libraries to run the program against *)
(* ===================================================================== *)

(** The library of the spec's example: a fixed greeting, the answer 42. *)
Definition lib42 : MyLib unit := {|
  print_greeting := fun _ l => Some ("Hello from my_lib!" ++ nl, l);
  get_answer := fun _ l => Some (42, l)
|}.

(** A library with state: the greeting counts its calls, and the answer
    is minus that count.  It writes nothing. *)
Definition counting_lib : MyLib Z := {|
  print_greeting := fun _ l => Some (EmptyString, l + 1);
  get_answer := fun _ l => Some (- l, l)
|}.

(** A library that reads the environment: it greets the program by the
    name it was started under, and answers with the number of arguments. *)
Definition nosy_lib : MyLib unit := {|
  print_greeting := fun e l => Some (hd EmptyString (argv e) ++ nl, l);
  get_answer := fun e l => Some (Z.of_nat (List.length (argv e)), l)
|}.

(** A library whose greeting never returns. *)
Definition hanging_lib : MyLib unit := {|
  print_greeting := fun _ _ => None;
  get_answer := fun _ l => Some (0, l)
|}.

(* ===================================================================== *)
(** * Facts about strings and printf *)
(* ===================================================================== *)

Lemma append_assoc (a b c : string) : (a ++ b) ++ c = a ++ b ++ c.
Proof. induction a as [|x a IH]; cbn; [reflexivity | now rewrite IH]. Qed.

Lemma append_nil_r (a : string) : a ++ EmptyString = a.
Proof. induction a as [|x a IH]; cbn; [reflexivity | now rewrite IH]. Qed.

Module StdioFacts.
Import Stdio.

Lemma digit_cases (d : Z) :
  0 <= d < 10 ->
  d = 0 \/ d = 1 \/ d = 2 \/ d = 3 \/ d = 4 \/
  d = 5 \/ d = 6 \/ d = 7 \/ d = 8 \/ d = 9.
Proof. lia. Qed.

Ltac each_digit H :=
  apply digit_cases in H;
  repeat (destruct H as [H | H]); subst.

Lemma digit_value_char (d : Z) :
  0 <= d < 10 -> digit_value (digit_char d) = Some d.
Proof. intros H. each_digit H; reflexivity. Qed.

(** Reading what [utoa] wrote: the digits of [n] shift the number read so
    far by some power of ten and add [n]. *)
Lemma atou_utoa (fuel : nat) :
  forall n acc, 0 <= n < 10 * 2 ^ Z.of_nat fuel ->
  exists k, 0 <= k /\
    forall a, atou (utoa fuel n acc) a = atou acc (a * 10 ^ (k + 1) + n).
Proof.
  induction fuel as [|fuel IH]; intros n acc Hn.
  - exists 0. split; [lia|]. intros a. cbn [utoa atou].
    change (2 ^ Z.of_nat 0) with 1 in Hn.
    rewrite Z.mod_small by lia.
    rewrite digit_value_char by lia. f_equal. lia.
  - cbn [utoa]. destruct (n <? 10) eqn:E.
    + apply Z.ltb_lt in E. exists 0. split; [lia|]. intros a. cbn [atou].
      rewrite Z.mod_small by lia.
      rewrite digit_value_char by lia. f_equal. lia.
    + apply Z.ltb_ge in E.
      assert (Hq : 0 <= n / 10 < 10 * 2 ^ Z.of_nat fuel).
      { rewrite Nat2Z.inj_succ, Z.pow_succ_r in Hn by lia.
        split; [apply Z.div_pos; lia|].
        apply Z.div_lt_upper_bound; lia. }
      destruct (IH (n / 10) (String (digit_char (n mod 10)) acc) Hq)
        as [k [Hk Hr]].
      exists (k + 1). split; [lia|]. intros a. rewrite Hr. cbn [atou].
      rewrite digit_value_char by (apply Z.mod_pos_bound; lia).
      f_equal. rewrite (Z.pow_add_r 10 (k + 1) 1) by lia.
      pose proof (Z.div_mod n 10). lia.
Qed.

Lemma utoa_fuel_enough (n : Z) :
  0 <= n -> 0 <= n < 10 * 2 ^ Z.of_nat (utoa_fuel n).
Proof.
  intros Hn. split; [exact Hn|]. unfold utoa_fuel.
  rewrite Z2Nat.id by apply Z.log2_nonneg.
  destruct (Z.eq_dec n 0) as [-> | Hz]; [reflexivity|].
  pose proof (Z.log2_spec n ltac:(lia)) as [_ Hu].
  rewrite Z.pow_succ_r in Hu by apply Z.log2_nonneg. lia.
Qed.

Lemma atou_utoa_0 (n : Z) :
  0 <= n -> atou (utoa (utoa_fuel n) n EmptyString) 0 = Some n.
Proof.
  intros Hn.
  destruct (atou_utoa (utoa_fuel n) n EmptyString (utoa_fuel_enough n Hn))
    as [k [_ Hr]].
  rewrite Hr. cbn. f_equal.
Qed.

(** The first character [utoa] writes for a positive number is a digit
    other than zero. *)
Lemma utoa_head (fuel : nat) :
  forall n acc, 0 < n < 10 * 2 ^ Z.of_nat fuel ->
  exists d rest, 1 <= d < 10 /\ utoa fuel n acc = String (digit_char d) rest.
Proof.
  induction fuel as [|fuel IH]; intros n acc Hn.
  - change (2 ^ Z.of_nat 0) with 1 in Hn.
    exists n, acc. split; [lia|]. cbn [utoa]. now rewrite Z.mod_small by lia.
  - cbn [utoa]. destruct (n <? 10) eqn:E.
    + apply Z.ltb_lt in E. exists n, acc. split; [lia|].
      now rewrite Z.mod_small by lia.
    + apply Z.ltb_ge in E. apply IH.
      rewrite Nat2Z.inj_succ, Z.pow_succ_r in Hn by lia.
      split; [apply Z.div_str_pos; lia|].
      apply Z.div_lt_upper_bound; lia.
Qed.

Lemma utoa_0 (fuel : nat) (acc : string) :
  utoa fuel 0 acc = String "0" acc.
Proof. destruct fuel; reflexivity. Qed.

(** [%d] reads back as the number printed. *)
Lemma atoi_itoa (n : Z) : atoi (itoa n) = Some n.
Proof.
  unfold itoa. destruct (n <? 0) eqn:E.
  - apply Z.ltb_lt in E.
    assert (Hp : 0 < - n < 10 * 2 ^ Z.of_nat (utoa_fuel (- n))).
    { pose proof (utoa_fuel_enough (- n)). lia. }
    destruct (utoa_head _ _ EmptyString Hp) as [d [rest [Hd Hs]]].
    pose proof (atou_utoa_0 (- n) ltac:(lia)) as Hr.
    rewrite Hs in *. unfold atoi. rewrite Hr. cbn. f_equal. lia.
  - apply Z.ltb_ge in E.
    pose proof (atou_utoa_0 n E) as Hr.
    destruct (Z.eq_dec n 0) as [-> | Hz]; [reflexivity|].
    assert (Hp : 0 < n < 10 * 2 ^ Z.of_nat (utoa_fuel n)).
    { pose proof (utoa_fuel_enough n). lia. }
    destruct (utoa_head _ _ EmptyString Hp) as [d [rest [Hd Hs]]].
    rewrite Hs in *. unfold atoi.
    assert (Hd' : 1 <= d < 10 -> digit_char d <> "-"%char).
    { clear. intros H. assert (H' : 0 <= d < 10) by lia.
      each_digit H'; try lia; discriminate. }
    specialize (Hd' Hd).
    destruct (digit_char d) as [[] [] [] [] [] [] [] []];
      try exact Hr; try (exfalso; apply Hd'; reflexivity).
Qed.

Lemma canonical_itoa (n : Z) : canonical (itoa n) = true.
Proof.
  unfold itoa. destruct (n <? 0) eqn:E.
  - apply Z.ltb_lt in E.
    assert (Hp : 0 < - n < 10 * 2 ^ Z.of_nat (utoa_fuel (- n))).
    { pose proof (utoa_fuel_enough (- n)). lia. }
    destruct (utoa_head _ _ EmptyString Hp) as [d [rest [Hd Hs]]].
    rewrite Hs. assert (H' : 0 <= d < 10) by lia.
    each_digit H'; try lia; reflexivity.
  - apply Z.ltb_ge in E.
    destruct (Z.eq_dec n 0) as [-> | Hz]; [reflexivity|].
    assert (Hp : 0 < n < 10 * 2 ^ Z.of_nat (utoa_fuel n)).
    { pose proof (utoa_fuel_enough n). lia. }
    destruct (utoa_head _ _ EmptyString Hp) as [d [rest [Hd Hs]]].
    rewrite Hs. assert (H' : 0 <= d < 10) by lia.
    each_digit H'; try lia; reflexivity.
Qed.

(** ** The canonical numeral of a number is unique *)

Lemma length_append (a b : string) :
  String.length (a ++ b) = (String.length a + String.length b)%nat.
Proof. induction a as [|x a IH]; cbn; [reflexivity | now rewrite IH]. Qed.

Lemma string_snoc_cases (s : string) :
  s = EmptyString \/ exists s' c, s = s' ++ String c EmptyString.
Proof.
  induction s as [|x s IH]; [now left | right].
  destruct IH as [-> | (s' & c & ->)].
  - now exists EmptyString, x.
  - now exists (String x s'), c.
Qed.

Lemma string_snoc_ind (P : string -> Prop) :
  P EmptyString ->
  (forall s c, P s -> P (s ++ String c EmptyString)) ->
  forall s, P s.
Proof.
  intros H0 Hs s.
  remember (String.length s) as k eqn:Hk. revert s Hk.
  induction k as [|k IH]; intros s Hk.
  - destruct s; [exact H0 | discriminate].
  - destruct (string_snoc_cases s) as [-> | (s' & c & ->)]; [exact H0|].
    apply Hs, IH. rewrite length_append in Hk. cbn in Hk. lia.
Qed.

Lemma atou_snoc (s : string) (c : ascii) :
  forall a,
    atou (s ++ String c EmptyString) a
    = match atou s a with
      | Some v => option_map (fun d => 10 * v + d) (digit_value c)
      | None => None
      end.
Proof.
  induction s as [|x s IH]; intros a; cbn [append atou].
  - now destruct (digit_value c).
  - destruct (digit_value x); [apply IH | reflexivity].
Qed.

Lemma digit_value_inv (c : ascii) (d : Z) :
  digit_value c = Some d -> c = digit_char d /\ 0 <= d < 10.
Proof.
  destruct c as [[] [] [] [] [] [] [] []]; cbn; intros H;
    try discriminate; injection H as <-; split; (reflexivity || lia).
Qed.

Lemma atou_ge (s : string) :
  forall a v, 0 <= a -> atou s a = Some v -> a <= v.
Proof.
  induction s as [|x s IH]; intros a v Ha; cbn [atou].
  - intros H. injection H as <-. lia.
  - destruct (digit_value x) as [d|] eqn:E; [|discriminate].
    apply digit_value_inv in E. intros H. apply IH in H; lia.
Qed.

Lemma atou_head_nonzero (s : string) (v : Z) :
  head_nonzero s -> atou s 0 = Some v -> 1 <= v.
Proof.
  destruct s as [|c s]; cbn [head_nonzero atou]; [contradiction|].
  intros Hc. destruct (digit_value c) as [d|] eqn:E; [|discriminate].
  apply digit_value_inv in E. destruct E as [-> Hd]. intros H.
  apply atou_ge in H; [|lia].
  assert (d <> 0) by (intros ->; now apply Hc). lia.
Qed.

Lemma utoa_small (fuel : nat) (n : Z) (acc : string) :
  0 <= n < 10 -> utoa fuel n acc = String (digit_char n) acc.
Proof.
  intros Hn. destruct fuel; cbn [utoa]; rewrite Z.mod_small by lia.
  - reflexivity.
  - now replace (n <? 10) with true by (symmetry; apply Z.ltb_lt; lia).
Qed.

(** [utoa] writes back the numeral that was read, digit for digit. *)
Lemma utoa_atou (s : string) :
  forall v fuel acc,
    head_nonzero s -> atou s 0 = Some v -> v < 10 * 2 ^ Z.of_nat fuel ->
    utoa fuel v acc = s ++ acc.
Proof.
  induction s as [|s c IH] using string_snoc_ind; intros v fuel acc Hh Hv Hf.
  - contradiction.
  - rewrite atou_snoc in Hv.
    destruct (atou s 0) as [v'|] eqn:Ev; [|discriminate].
    destruct (digit_value c) as [d|] eqn:Ed; [|discriminate].
    cbn [option_map] in Hv.
    assert (Hv' : v = 10 * v' + d) by congruence. subst v. clear Hv.
    apply digit_value_inv in Ed. destruct Ed as [-> Hd].
    rewrite append_assoc. cbn [append].
    destruct s as [|x s].
    + cbn [atou] in Ev. injection Ev as <-.
      replace (10 * 0 + d) with d by lia.
      now rewrite utoa_small by lia.
    + assert (Hh' : head_nonzero (String x s)) by exact Hh.
      pose proof (atou_head_nonzero _ _ Hh' Ev) as Hpos.
      destruct fuel as [|fuel].
      { change (2 ^ Z.of_nat 0) with 1 in Hf. lia. }
      cbn [utoa].
      replace (10 * v' + d <? 10) with false
        by (symmetry; apply Z.ltb_ge; lia).
      replace ((10 * v' + d) / 10) with v'
        by (apply Z.div_unique with d; lia).
      replace ((10 * v' + d) mod 10) with d
        by (apply Z.mod_unique with v'; lia).
      apply IH; [exact Hh' | reflexivity |].
      rewrite Nat2Z.inj_succ, Z.pow_succ_r in Hf by lia. lia.
Qed.

Lemma atoi_unsigned (c : ascii) (s : string) :
  c <> "-"%char -> atoi (String c s) = atou (String c s) 0.
Proof.
  intros H. unfold atoi.
  destruct c as [[] [] [] [] [] [] [] []]; try reflexivity.
  now contradiction H.
Qed.

Lemma atoi_signed (s : string) :
  atoi (String "-" s)
  = match s with
    | EmptyString => None
    | _ => option_map Z.opp (atou s 0)
    end.
Proof. reflexivity. Qed.

(** A canonical numeral that reads as [n] is the one [%d] prints. *)
Lemma signed_decimal_unique (n : Z) (s : string) :
  signed_decimal n s -> s = itoa n.
Proof.
  intros [Hr Hc]. destruct s as [|c s]; [discriminate|].
  destruct (ascii_dec c "-") as [-> | Hm].
  - rewrite atoi_signed in Hr. destruct s as [|x s]; [discriminate|].
    destruct (atou (String x s) 0) as [v|] eqn:Ev; [|discriminate].
    cbn in Hr. injection Hr as <-.
    assert (Hh : head_nonzero (String x s)).
    { cbn. intros ->. discriminate. }
    pose proof (atou_head_nonzero _ _ Hh Ev) as Hpos.
    unfold itoa. replace (- v <? 0) with true
      by (symmetry; apply Z.ltb_lt; lia).
    rewrite Z.opp_involutive. f_equal.
    rewrite (utoa_atou _ _ _ EmptyString Hh Ev)
      by (apply utoa_fuel_enough; lia).
    now rewrite append_nil_r.
  - rewrite atoi_unsigned in Hr by exact Hm.
    destruct (ascii_dec c "0") as [-> | Hz].
    + destruct s as [|x s]; [|discriminate].
      cbn in Hr. injection Hr as <-. reflexivity.
    + assert (Hh : head_nonzero (String c s)) by exact Hz.
      pose proof (atou_head_nonzero _ _ Hh Hr) as Hpos.
      unfold itoa. replace (n <? 0) with false
        by (symmetry; apply Z.ltb_ge; lia).
      rewrite (utoa_atou _ _ _ EmptyString Hh Hr)
        by (apply utoa_fuel_enough; lia).
      now rewrite append_nil_r.
Qed.

Lemma signed_decimal_itoa (n : Z) : signed_decimal n (itoa n).
Proof. split; [apply atoi_itoa | apply canonical_itoa]. Qed.

End StdioFacts.

Lemma format_starting_line :
  Stdio.format ("Starting the main application." ++ nl) [] = Some starting_line.
Proof. reflexivity. Qed.

Lemma format_answer_line (n : int) :
  Stdio.format ("The retrieved answer is: %d" ++ nl) [n] = Some (answer_line n).
Proof.
  unfold answer_line. cbn [Stdio.format append nl option_map].
  generalize (Stdio.itoa n). intros s. reflexivity.
Qed.

(* ===================================================================== *)
(** * Running main *)
(* ===================================================================== *)

(** [run_fuel] and [returns] agree. *)
Lemma run_fuel_returns {R : Type} (fuel : nat) (t : itree void1 R) (r : R) :
  run_fuel fuel t = Some r -> returns t r.
Proof.
  revert t. induction fuel as [|fuel IH]; cbn; intros t H; [discriminate|].
  unfold returns. rewrite (itree_eta t).
  destruct (observe t) as [r' | t' | X e k].
  - injection H as ->. reflexivity.
  - rewrite tau_eutt. now apply IH.
  - destruct e.
Qed.

Lemma returns_run_fuel {R : Type} (t : itree void1 R) (r : R) :
  returns t r -> exists fuel, run_fuel fuel t = Some r.
Proof.
  unfold returns. intros H. punfold H. red in H. cbn in H.
  remember (observe t) as ot eqn:Ht. remember (RetF r) as o eqn:Ho.
  revert t Ht Ho.
  induction H as [r1 r2 E | | | t1 ot2 C H IH | ]; intros t Ht Ho;
    try discriminate.
  - injection Ho as <-. subst r1. exists 1%nat. cbn. now rewrite <- Ht.
  - destruct (IH t1 eq_refl Ho) as [fuel Hf].
    exists (S fuel). cbn. now rewrite <- Ht.
Qed.

(** A run has at most one result. *)
Lemma returns_unique {R : Type} (t : itree void1 R) (r1 r2 : R) :
  returns t r1 -> returns t r2 -> r1 = r2.
Proof.
  unfold returns. intros H1 H2. rewrite H1 in H2.
  now apply eutt_inv_Ret in H2.
Qed.

Section Runs.

Context {L : Type} {lib : MyLib L}.

(** One call followed by the rest of the program. *)
Lemma run_call {T R : Type} (e : mainE T) (k : T -> itree mainE R) (p : process L) :
  interp_state handle (ITree.bind (ITree.trigger e) k) p
  ≈ ITree.bind (handle T e p)
      (fun st => interp_state handle (k (snd st)) (fst st)).
Proof.
  rewrite interp_state_bind, interp_state_trigger. reflexivity.
Qed.

Lemma handle_printf fmt args s (p : process L) :
  Stdio.format fmt args = Some s ->
  handle int (inl1 (Printf fmt args)) p
  = Ret (write s (record_call (Call (inl1 (Printf fmt args))) p),
         Z.of_nat (String.length s)).
Proof. intros H. unfold handle, h_stdio. now rewrite H. Qed.

Lemma handle_print_greeting (p : process L) :
  handle unit (inr1 Print_greeting) p
  = match print_greeting (env p) (lib_state p) with
    | Some (g, l') =>
        Ret (set_lib_state l'
               (write g (record_call (Call (inr1 Print_greeting)) p)), tt)
    | None => ITree.spin
    end.
Proof. reflexivity. Qed.

Lemma handle_get_answer (p : process L) :
  handle int (inr1 Get_answer) p
  = match get_answer (env p) (lib_state p) with
    | Some (n, l') =>
        Ret (set_lib_state l' (record_call (Call (inr1 Get_answer)) p), n)
    | None => ITree.spin
    end.
Proof. reflexivity. Qed.

Lemma run_main_unfold (p : process L) :
  run_main p
  ≈ ITree.bind (handle unit (inr1 Print_greeting) (greeted p))
      (fun st1 =>
         ITree.bind (handle int (inr1 Get_answer) (fst st1))
           (fun st2 =>
              ITree.bind
                (handle int
                   (inl1 (Printf ("The retrieved answer is: %d" ++ nl)
                            [snd st2])) (fst st2))
                (fun st3 => Ret (fst st3, 0)))).
Proof.
  unfold run_main, main.
  rewrite run_call.
  rewrite (handle_printf _ _ _ _ format_starting_line), bind_ret_l.
  cbn [fst snd]. fold (greeted p).
  rewrite run_call.
  apply eutt_eq_bind. intros st1.
  rewrite run_call.
  apply eutt_eq_bind. intros st2.
  rewrite run_call.
  apply eutt_eq_bind. intros st3.
  rewrite interp_state_ret. reflexivity.
Qed.

Lemma finished_eq (p : process L) g l1 n l2 :
  write (answer_line n)
    (record_call
       (Call (inl1 (Printf ("The retrieved answer is: %d" ++ nl) [n])))
       (set_lib_state l2
          (record_call (Call (inr1 Get_answer))
             (set_lib_state l1
                (write g
                   (record_call (Call (inr1 Print_greeting)) (greeted p)))))))
  = finished p g n l2.
Proof.
  unfold finished, greeted, write, record_call, set_lib_state, calls_of_main.
  cbn [env stdout lib_state history].
  f_equal.
  - now rewrite !append_assoc.
  - now rewrite <- !app_assoc.
Qed.

(** A run in which both library calls return. *)
Lemma run_main_returns (p : process L) g l1 n l2 :
  print_greeting (env p) (lib_state p) = Some (g, l1) ->
  get_answer (env p) l1 = Some (n, l2) ->
  returns (run_main p) (finished p g n l2, 0).
Proof.
  intros Hg Ha. unfold returns. rewrite run_main_unfold.
  rewrite handle_print_greeting.
  replace (print_greeting (env (greeted p)) (lib_state (greeted p)))
    with (Some (g, l1)) by (symmetry; exact Hg).
  rewrite bind_ret_l. cbn [fst snd].
  rewrite handle_get_answer.
  replace (get_answer _ _) with (Some (n, l2)) by (symmetry; exact Ha).
  rewrite bind_ret_l. cbn [fst snd].
  rewrite (handle_printf _ _ _ _ (format_answer_line n)), bind_ret_l.
  cbn [fst snd]. rewrite (finished_eq p g l1 n l2). reflexivity.
Qed.

(** Conversely, a run that returns is one in which both calls returned. *)
Lemma run_main_inv (p : process L) (r : process L * int) :
  returns (run_main p) r ->
  exists g l1 n l2,
    print_greeting (env p) (lib_state p) = Some (g, l1) /\
    get_answer (env p) l1 = Some (n, l2) /\
    r = (finished p g n l2, 0).
Proof.
  unfold returns. intros H.
  destruct (print_greeting (env p) (lib_state p)) as [[g l1]|] eqn:Hg.
  - destruct (get_answer (env p) l1) as [[n l2]|] eqn:Ha.
    + exists g, l1, n, l2. split; [reflexivity|]. split; [exact Ha|].
      pose proof (run_main_returns p g l1 n l2 Hg Ha) as H'.
      unfold returns in H'. rewrite H in H'.
      now apply eutt_inv_Ret in H'.
    + exfalso. rewrite run_main_unfold in H.
      rewrite handle_print_greeting in H.
      replace (print_greeting (env (greeted p)) (lib_state (greeted p)))
        with (Some (g, l1)) in H by (symmetry; exact Hg).
      rewrite bind_ret_l in H. cbn [fst snd] in H.
      apply eutt_inv_bind_ret in H. destruct H as [a [H _]].
      rewrite handle_get_answer in H.
      replace (get_answer _ _) with (@None (int * L)) in H
        by (symmetry; exact Ha).
      now apply eutt_spin_Ret_abs in H.
  - exfalso. rewrite run_main_unfold in H.
    apply eutt_inv_bind_ret in H. destruct H as [a [H _]].
    rewrite handle_print_greeting in H.
    replace (print_greeting (env (greeted p)) (lib_state (greeted p)))
      with (@None (string * L)) in H by (symmetry; exact Hg).
    now apply eutt_spin_Ret_abs in H.
Qed.

(** A run in which a library call does not return never returns. *)
Lemma run_main_hangs_greeting (p : process L) :
  print_greeting (env p) (lib_state p) = None ->
  exists k, run_main p ≈ ITree.bind (@ITree.spin void1 (process L * unit)) k.
Proof.
  intros Hg. eexists. rewrite run_main_unfold, handle_print_greeting.
  replace (print_greeting (env (greeted p)) (lib_state (greeted p)))
    with (@None (string * L)) by (symmetry; exact Hg).
  reflexivity.
Qed.

Lemma run_main_hangs_answer (p : process L) g l1 :
  print_greeting (env p) (lib_state p) = Some (g, l1) ->
  get_answer (env p) l1 = None ->
  exists k, run_main p ≈ ITree.bind (@ITree.spin void1 (process L * int)) k.
Proof.
  intros Hg Ha. eexists. rewrite run_main_unfold, handle_print_greeting.
  replace (print_greeting (env (greeted p)) (lib_state (greeted p)))
    with (Some (g, l1)) by (symmetry; exact Hg).
  rewrite bind_ret_l. cbn [fst snd]. rewrite handle_get_answer.
  replace (get_answer _ _) with (@None (int * L)) by (symmetry; exact Ha).
  reflexivity.
Qed.

(** Two computations stuck on a call that does not return are related by
    any relation on results: neither has a result. *)
Lemma hang_related {A B R1 R2 : Type} (RR : R1 -> R2 -> Prop)
    (k1 : A -> itree void1 R1) (k2 : B -> itree void1 R2) :
  eutt RR (ITree.bind ITree.spin k1) (ITree.bind ITree.spin k2).
Proof.
  apply eutt_clo_bind with (UU := fun _ _ => False).
  - apply euttNoRet_spin.
  - intros ? ? [].
Qed.

(** Runs in which the library behaves identically are indistinguishable,
    provided the same had been written before [main] was entered. *)
Lemma run_main_related (p1 p2 : process L) :
  stdout p1 = stdout p2 ->
  same_behaviour p1 p2 ->
  eutt same_observation (run_main p1) (run_main p2).
Proof.
  unfold same_behaviour. intros Hs H.
  destruct (print_greeting (env p1) (lib_state p1)) as [[g1 l1]|] eqn:Hg1;
    destruct (print_greeting (env p2) (lib_state p2)) as [[g2 l2]|] eqn:Hg2;
    try contradiction.
  - destruct H as [<- H].
    destruct (get_answer (env p1) l1) as [[n1 m1]|] eqn:Ha1;
      destruct (get_answer (env p2) l2) as [[n2 m2]|] eqn:Ha2;
      try contradiction.
    + subst n2.
      pose proof (run_main_returns p1 _ _ _ _ Hg1 Ha1) as R1.
      pose proof (run_main_returns p2 _ _ _ _ Hg2 Ha2) as R2.
      unfold returns in R1, R2. rewrite R1, R2.
      apply eqit_Ret. split; [|reflexivity].
      unfold output_of, finished. cbn [fst stdout]. now rewrite Hs.
    + destruct (run_main_hangs_answer p1 _ _ Hg1 Ha1) as [k1 R1].
      destruct (run_main_hangs_answer p2 _ _ Hg2 Ha2) as [k2 R2].
      rewrite R1, R2. apply hang_related.
  - destruct (run_main_hangs_greeting p1 Hg1) as [k1 R1].
    destruct (run_main_hangs_greeting p2 Hg2) as [k2 R2].
    rewrite R1, R2. apply hang_related.
Qed.

End Runs.

(** Whatever the calls answer, every path through [main] is finite
    and ends in [return 0]. *)
Lemma main_all_finite : all_finite main.
Proof.
  unfold main.
  repeat (apply all_finite_bind_weak; [apply all_finite_trigger | intros ?]).
  apply all_finite_Ret.
Qed.

Lemma main_leaf (c : int) : Leaf c main -> c = 0.
Proof.
  unfold main. intros H.
  repeat (apply Leaf_bind_inv in H; destruct H as [? [_ H]]).
  now apply Leaf_Ret_inv in H.
Qed.

(** [main] is exactly four calls in a row followed by [return 0]. *)
Lemma main_shape : main ≅ specified_steps.
Proof.
  unfold main, specified_steps.
  repeat (rewrite bind_trigger; apply eqit_Vis; intros ?).
  reflexivity.
Qed.

(* ===================================================================== *)
(** * Running main with printf as a parameter *)
(* ===================================================================== *)

Section RunsWith.

Context {L : Type} {lib : MyLib L}.

(** [main] under any handler: four handled calls in a row. *)
Lemma interp_main_unfold
    (h : mainE ~> Monads.stateT (process L) (itree void1)) (p : process L) :
  interp_state h main p
  ≈ ITree.bind
      (h int (inl1 (Printf ("Starting the main application." ++ nl) [])) p)
      (fun st0 =>
         ITree.bind (h unit (inr1 Print_greeting) (fst st0))
           (fun st1 =>
              ITree.bind (h int (inr1 Get_answer) (fst st1))
                (fun st2 =>
                   ITree.bind
                     (h int
                        (inl1 (Printf ("The retrieved answer is: %d" ++ nl)
                                 [snd st2])) (fst st2))
                     (fun st3 => Ret (fst st3, 0))))).
Proof.
  unfold main.
  repeat (rewrite interp_state_bind, interp_state_trigger;
          apply eutt_eq_bind; intros ?).
  rewrite interp_state_ret. reflexivity.
Qed.

Lemma handle_with_printf (pf : printf_behaviour) fmt args s c (p : process L) :
  pf fmt args = Some (s, c) ->
  handle_with pf int (inl1 (Printf fmt args)) p
  = Ret (write s (record_call (Call (inl1 (Printf fmt args))) p), c).
Proof. intros H. unfold handle_with, h_stdio_with. now rewrite H. Qed.

Lemma handle_with_lib (pf : printf_behaviour) {T : Type} (e : my_libE T)
    (p : process L) :
  handle_with pf T (inr1 e) p = handle T (inr1 e) p.
Proof. reflexivity. Qed.

(** With the standard printf the parameterised handler is the handler. *)
Lemma handle_with_standard {T : Type} (e : mainE T) (p : process L) :
  handle_with standard_printf T e p = handle T e p.
Proof.
  destruct e as [e | e]; [|reflexivity].
  destruct e as [fmt args].
  unfold handle_with, handle, h_stdio_with, h_stdio, standard_printf.
  now destruct (Stdio.format fmt args).
Qed.

Lemma run_main_with_standard (p : process L) :
  run_main_with standard_printf p ≈ run_main p.
Proof.
  unfold run_main_with, run_main. rewrite !interp_main_unfold.
  repeat (rewrite handle_with_standard; apply eutt_eq_bind; intros ?).
  reflexivity.
Qed.

(** The state in which a complete run leaves the process when the two
    printf calls wrote [w1] and [w2]. *)
Lemma run_main_with_returns (pf : printf_behaviour) (p : process L)
    w1 c1 g l1 n l2 w2 c2 :
  pf ("Starting the main application." ++ nl) [] = Some (w1, c1) ->
  print_greeting (env p) (lib_state p) = Some (g, l1) ->
  get_answer (env p) l1 = Some (n, l2) ->
  pf ("The retrieved answer is: %d" ++ nl) [n] = Some (w2, c2) ->
  returns (run_main_with pf p)
    ({| env := env p;
        stdout := stdout p ++ w1 ++ g ++ w2;
        lib_state := l2;
        history := history p ++ calls_of_main n |}, 0).
Proof.
  intros H1 Hg Ha H2. unfold returns, run_main_with.
  rewrite interp_main_unfold.
  rewrite (handle_with_printf pf _ _ _ _ _ H1), bind_ret_l. cbn [fst snd].
  rewrite handle_with_lib, handle_print_greeting.
  cbn [env lib_state write record_call].
  rewrite Hg, bind_ret_l. cbn [fst snd].
  rewrite handle_with_lib, handle_get_answer.
  cbn [env lib_state write record_call set_lib_state].
  rewrite Ha, bind_ret_l. cbn [fst snd].
  rewrite (handle_with_printf pf _ _ _ _ _ H2), bind_ret_l. cbn [fst snd].
  apply eqit_Ret. f_equal.
  unfold write, record_call, set_lib_state, calls_of_main.
  cbn [env stdout lib_state history].
  f_equal.
  - now rewrite !append_assoc.
  - now rewrite <- !app_assoc.
Qed.

End RunsWith.

(* ===================================================================== *)
(** * Facts about reading the answer off the output *)
(* ===================================================================== *)

Module OutputFacts.
Import Stdio.

Lemma digit_char_not_blank (d : Z) :
  0 <= d < 10 -> Ascii.eqb (digit_char d) blank = false.
Proof.
  intros H. apply StdioFacts.digit_cases in H.
  repeat (destruct H as [H | H]); subst; reflexivity.
Qed.

Lemma no_blank_utoa (fuel : nat) :
  forall n acc, 0 <= n -> no_blank acc = true ->
                no_blank (utoa fuel n acc) = true.
Proof.
  induction fuel as [|fuel IH]; intros n acc Hn Hacc; cbn [utoa].
  - cbn [no_blank].
    rewrite digit_char_not_blank by (apply Z.mod_pos_bound; lia).
    exact Hacc.
  - assert (Hd : no_blank (String (digit_char (n mod 10)) acc) = true).
    { cbn [no_blank].
      rewrite digit_char_not_blank by (apply Z.mod_pos_bound; lia).
      exact Hacc. }
    destruct (n <? 10); [exact Hd|].
    apply IH; [apply Z.div_pos; lia | exact Hd].
Qed.

Lemma no_blank_itoa (n : Z) : no_blank (itoa n) = true.
Proof.
  unfold itoa. destruct (n <? 0) eqn:E.
  - apply Z.ltb_lt in E. cbn [no_blank].
    change (Ascii.eqb "-" blank) with false. cbn [negb andb].
    apply no_blank_utoa; [lia | reflexivity].
  - apply Z.ltb_ge in E. apply no_blank_utoa; [lia | reflexivity].
Qed.

Lemma no_blank_app (a b : string) :
  no_blank (a ++ b) = no_blank a && no_blank b.
Proof.
  induction a as [|x a IH]; cbn [append no_blank]; [reflexivity|].
  now rewrite IH, andb_assoc.
Qed.

Lemma after_last_blank_none (s : string) :
  no_blank s = true -> after_last_blank s = None.
Proof.
  induction s as [|c s IH]; cbn [no_blank after_last_blank]; [reflexivity|].
  intros H. apply andb_true_iff in H. destruct H as [Hc Hs].
  rewrite (IH Hs). apply negb_true_iff in Hc. now rewrite Hc.
Qed.

Lemma after_last_blank_app (x t : string) :
  no_blank t = true -> after_last_blank (x ++ String blank t) = Some t.
Proof.
  intros Ht. induction x as [|c x IH]; cbn [append after_last_blank].
  - now rewrite (after_last_blank_none t Ht).
  - now rewrite IH.
Qed.

Lemma chomp_nl (d : string) : chomp (d ++ nl) = d.
Proof.
  induction d as [|c d IH]; [reflexivity|].
  cbn [append]. destruct d as [|c' d]; cbn [append chomp] in *.
  - reflexivity.
  - now rewrite IH.
Qed.

(** Whatever precedes the answer line, the number read off is the one
    printed. *)
Lemma answer_of_output_answer_line (x : string) (n : int) :
  answer_of_output (x ++ answer_line n) = Some n.
Proof.
  unfold answer_of_output, answer_line.
  change ("The retrieved answer is: " ++ itoa n ++ nl)
    with ("The retrieved answer is:" ++ String blank (itoa n ++ nl)).
  rewrite <- append_assoc.
  rewrite after_last_blank_app
    by (rewrite no_blank_app, no_blank_itoa; reflexivity).
  rewrite chomp_nl. apply StdioFacts.atoi_itoa.
Qed.

End OutputFacts.

(* ===================================================================== *)
(** * The properties of the program *)
(* ===================================================================== *)

(** C1. For every integer [n] that [get_answer] returns, and every output
    [g] that [print_greeting] produces, running the program writes to
    standard output exactly the line "Starting the main application.",
    then [g], then the line "The retrieved answer is: " followed by the
    signed decimal representation of [n] (the one canonical numeral that
    reads back as [n]), in that order; with the answer 42 the last line
    reads "The retrieved answer is: 42". *)
Theorem program_output {L : Type} {lib : MyLib L}
    (a : list string) (e : list (string * string)) (l : L)
    (g : string) (l1 : L) (n : int) (l2 : L) :
  print_greeting {| argv := a; environ := e |} l = Some (g, l1) ->
  get_answer {| argv := a; environ := e |} l1 = Some (n, l2) ->
  exists r d,
    returns (run_program a e l) r /\
    output_of r
    = ("Starting the main application." ++ nl) ++ g
      ++ ("The retrieved answer is: " ++ d ++ nl) /\
    Stdio.signed_decimal n d /\
    (forall d', Stdio.signed_decimal n d' -> d' = d) /\
    (n = 42 ->
     output_of r
     = ("Starting the main application." ++ nl) ++ g
       ++ ("The retrieved answer is: 42" ++ nl)).
Proof.
  intros Hg Ha.
  exists (finished (start a e l) g n l2, 0), (Stdio.itoa n).
  split; [now apply (run_main_returns (start a e l) g l1 n l2)|].
  split; [reflexivity|].
  split; [apply StdioFacts.signed_decimal_itoa|].
  split; [apply StdioFacts.signed_decimal_unique|].
  intros ->. reflexivity.
Qed.

Lemma program_output_witness :
  exists r d,
    returns (@run_program unit lib42 ["./main"] [] tt) r /\
    output_of r
    = ("Starting the main application." ++ nl) ++ ("Hello from my_lib!" ++ nl)
      ++ ("The retrieved answer is: " ++ d ++ nl) /\
    Stdio.signed_decimal 42 d /\
    (forall d', Stdio.signed_decimal 42 d' -> d' = d) /\
    (42 = 42 ->
     output_of r
     = ("Starting the main application." ++ nl) ++ ("Hello from my_lib!" ++ nl)
       ++ ("The retrieved answer is: 42" ++ nl)).
Proof.
  apply (@program_output unit lib42 ["./main"] [] tt
           ("Hello from my_lib!" ++ nl) tt 42 tt); reflexivity.
Defined.

(** C2. Whatever the library functions do, [main] has no error branch:
    every path through its body ends in [return 0]; a run that completes
    exits with code 0; and a run completes whenever both library calls
    return. *)
Theorem main_exit_code {L : Type} {lib : MyLib L} (p : process L) :
  (forall c, Leaf c main -> c = 0) /\
  (forall r, returns (run_main p) r -> exit_code_of r = 0) /\
  (forall g l1 n l2,
     print_greeting (env p) (lib_state p) = Some (g, l1) ->
     get_answer (env p) l1 = Some (n, l2) ->
     exists r, returns (run_main p) r /\ exit_code_of r = 0).
Proof.
  split; [exact main_leaf|]. split.
  - intros r H. apply run_main_inv in H.
    destruct H as (g & l1 & n & l2 & _ & _ & ->). reflexivity.
  - intros g l1 n l2 Hg Ha. exists (finished p g n l2, 0).
    split; [now apply (run_main_returns p g l1 n l2) | reflexivity].
Qed.

Lemma main_exit_code_witness :
  exists r,
    returns (@run_main Z counting_lib (start [] [] 6)) r /\
    exit_code_of r = 0.
Proof.
  apply (proj2 (proj2 (@main_exit_code Z counting_lib (start [] [] 6)))
           EmptyString 7 (-7) 7); reflexivity.
Defined.

(** C3. [main] is exactly the specified sequence of steps, and a complete
    run makes exactly four calls, each once and in this order: printf with
    the fixed string, [print_greeting], [get_answer], printf with the fixed
    format and the integer returned; it then returns the success code 0.
    Nothing else is done. *)
Theorem main_steps {L : Type} {lib : MyLib L}
    (a : list string) (e : list (string * string)) (l : L)
    (g : string) (l1 : L) (n : int) (l2 : L) :
  print_greeting {| argv := a; environ := e |} l = Some (g, l1) ->
  get_answer {| argv := a; environ := e |} l1 = Some (n, l2) ->
  main ≅ specified_steps /\
  exists r,
    returns (run_program a e l) r /\
    calls_of r
    = [ Call (inl1 (Printf ("Starting the main application." ++ nl) []));
        Call (inr1 Print_greeting);
        Call (inr1 Get_answer);
        Call (inl1 (Printf ("The retrieved answer is: %d" ++ nl) [n])) ] /\
    exit_code_of r = 0.
Proof.
  intros Hg Ha. split; [exact main_shape|].
  exists (finished (start a e l) g n l2, 0).
  split; [now apply (run_main_returns (start a e l) g l1 n l2)|].
  split; reflexivity.
Qed.

Lemma main_steps_witness :
  main ≅ specified_steps /\
  exists r,
    returns (@run_program Z counting_lib [] [] 0) r /\
    calls_of r
    = [ Call (inl1 (Printf ("Starting the main application." ++ nl) []));
        Call (inr1 Print_greeting);
        Call (inr1 Get_answer);
        Call (inl1 (Printf ("The retrieved answer is: %d" ++ nl) [-1])) ] /\
    exit_code_of r = 0.
Proof.
  apply (@main_steps Z counting_lib [] [] 0 EmptyString 1 (-1) 1);
    reflexivity.
Defined.

(** C4. The observable behaviour does not depend on command-line
    arguments or environment variables: two runs, started with any
    arguments and any environment, in which the library functions behave
    identically, are indistinguishable by output and exit code. *)
Theorem program_ignores_arguments {L : Type} {lib : MyLib L}
    (a1 a2 : list string) (e1 e2 : list (string * string)) (l1 l2 : L) :
  same_behaviour (start a1 e1 l1) (start a2 e2 l2) ->
  eutt same_observation (run_program a1 e1 l1) (run_program a2 e2 l2) /\
  (forall r1 r2,
     returns (run_program a1 e1 l1) r1 ->
     returns (run_program a2 e2 l2) r2 ->
     output_of r1 = output_of r2 /\ exit_code_of r1 = exit_code_of r2).
Proof.
  intros H.
  assert (E : eutt same_observation
                (run_program a1 e1 l1) (run_program a2 e2 l2)).
  { apply run_main_related; [reflexivity | exact H]. }
  split; [exact E|].
  intros r1 r2 H1 H2. unfold returns in H1, H2.
  rewrite H1, H2 in E. now apply eqit_inv_Ret in E.
Qed.

Lemma program_ignores_arguments_witness :
  eutt same_observation
    (@run_program unit lib42 ["./main"; "--verbose"] [("HOME", "/root")] tt)
    (@run_program unit lib42 ["./main"] [] tt) /\
  (forall r1 r2,
     returns (@run_program unit lib42 ["./main"; "--verbose"]
                [("HOME", "/root")] tt) r1 ->
     returns (@run_program unit lib42 ["./main"] [] tt) r2 ->
     output_of r1 = output_of r2 /\ exit_code_of r1 = exit_code_of r2).
Proof.
  apply (@program_ignores_arguments unit lib42
           ["./main"; "--verbose"] ["./main"] [("HOME", "/root")] [] tt tt).
  split; reflexivity.
Defined.

(** C5. The integer returned by [get_answer] is used exactly once, as the
    argument of the second printf, and then dropped: it is the only integer
    ever passed to a call and it is not part of the exit code.  Apart from
    the two lines it prints, [main] changes nothing: the environment is as
    it was, and the library's state is the one the library itself left. *)
Theorem main_frame {L : Type} {lib : MyLib L} (p : process L)
    (g : string) (l1 : L) (n : int) (l2 : L) :
  print_greeting (env p) (lib_state p) = Some (g, l1) ->
  get_answer (env p) l1 = Some (n, l2) ->
  exists r,
    returns (run_main p) r /\
    flat_map int_args_of (calls_of r)
    = (flat_map int_args_of (history p) ++ [n])%list /\
    exit_code_of r = 0 /\
    env (fst r) = env p /\
    lib_state (fst r) = l2 /\
    output_of r
    = stdout p ++ ("Starting the main application." ++ nl) ++ g
      ++ ("The retrieved answer is: " ++ Stdio.itoa n ++ nl).
Proof.
  intros Hg Ha.
  exists (finished p g n l2, 0).
  split; [now apply (run_main_returns p g l1 n l2)|].
  split; [|repeat split].
  unfold calls_of, finished. cbn [fst history].
  rewrite flat_map_app. reflexivity.
Qed.

Lemma main_frame_witness :
  exists r,
    returns (@run_main Z counting_lib (start ["./main"] [("LANG", "C")] 2)) r /\
    flat_map int_args_of (calls_of r) = ([] ++ [-3])%list /\
    exit_code_of r = 0 /\
    env (fst r) = {| argv := ["./main"]; environ := [("LANG", "C")] |} /\
    lib_state (fst r) = 3 /\
    output_of r
    = EmptyString ++ ("Starting the main application." ++ nl) ++ EmptyString
      ++ ("The retrieved answer is: " ++ Stdio.itoa (-3) ++ nl).
Proof.
  apply (@main_frame Z counting_lib (start ["./main"] [("LANG", "C")] 2)
           EmptyString 3 (-3) 3); reflexivity.
Defined.

(** C6. [main] terminates on every run in which the two library calls
    return: its body is a finite straight-line sequence of calls, so every
    path through it is finite, and the run reaches its result within a
    finite number of steps. *)
Theorem main_terminates {L : Type} {lib : MyLib L} (p : process L)
    (g : string) (l1 : L) (n : int) (l2 : L) :
  print_greeting (env p) (lib_state p) = Some (g, l1) ->
  get_answer (env p) l1 = Some (n, l2) ->
  all_finite main /\
  exists fuel r, run_fuel fuel (run_main p) = Some r.
Proof.
  intros Hg Ha. split; [exact main_all_finite|].
  destruct (returns_run_fuel _ _ (run_main_returns p g l1 n l2 Hg Ha))
    as [fuel Hf].
  now exists fuel, (finished p g n l2, 0).
Qed.

Lemma main_terminates_witness :
  all_finite main /\
  exists fuel r,
    run_fuel fuel (@run_main unit nosy_lib (start ["./main"; "-x"] [] tt))
    = Some r.
Proof.
  apply (@main_terminates unit nosy_lib (start ["./main"; "-x"] [] tt)
           ("./main" ++ nl) tt 2 tt); reflexivity.
Defined.

(** C8. For every integer [n] that [get_answer] returns, zero and
    negative values included, the last line printed is exactly
    "The retrieved answer is: " followed by the signed decimal
    representation of [n], the one canonical numeral that reads back as
    [n]; [n] reaches printf as [get_answer] returned it. *)
Theorem answer_line_printed {L : Type} {lib : MyLib L} (p : process L)
    (g : string) (l1 : L) (n : int) (l2 : L) :
  print_greeting (env p) (lib_state p) = Some (g, l1) ->
  get_answer (env p) l1 = Some (n, l2) ->
  exists r d,
    returns (run_main p) r /\
    output_of r
    = (stdout p ++ ("Starting the main application." ++ nl) ++ g)
      ++ "The retrieved answer is: " ++ d ++ nl /\
    Stdio.signed_decimal n d /\
    (forall d', Stdio.signed_decimal n d' -> d' = d) /\
    last (calls_of r) (Call (inr1 Get_answer))
    = Call (inl1 (Printf ("The retrieved answer is: %d" ++ nl) [n])).
Proof.
  intros Hg Ha.
  exists (finished p g n l2, 0), (Stdio.itoa n).
  split; [now apply (run_main_returns p g l1 n l2)|].
  split; [|split; [|split]].
  - unfold output_of, finished, answer_line. cbn [fst stdout].
    now rewrite !append_assoc.
  - apply StdioFacts.signed_decimal_itoa.
  - apply StdioFacts.signed_decimal_unique.
  - unfold calls_of, finished, calls_of_main. cbn [fst history].
    change [?a; ?b; ?c; ?d] with ([a; b; c] ++ [d])%list.
    now rewrite app_assoc, last_last.
Qed.

Lemma answer_line_printed_witness :
  exists r d,
    returns (@run_main Z counting_lib (start [] [] 11)) r /\
    output_of r
    = (EmptyString ++ ("Starting the main application." ++ nl) ++ EmptyString)
      ++ "The retrieved answer is: " ++ d ++ nl /\
    Stdio.signed_decimal (-12) d /\
    (forall d', Stdio.signed_decimal (-12) d' -> d' = d) /\
    last (calls_of r) (Call (inr1 Get_answer))
    = Call (inl1 (Printf ("The retrieved answer is: %d" ++ nl) [-12])).
Proof.
  apply (@answer_line_printed Z counting_lib (start [] [] 11)
           EmptyString 12 (-12) 12); reflexivity.
Defined.

(** C9. The two lines [main] prints itself, and their order, do not
    depend on what [print_greeting] does: for any two behaviours of
    [print_greeting], one of which may print nothing at all,
    "Starting the main application." is written before the call and the
    answer line after it, both with unchanged content: the text around
    the greeting is the same in both runs up to the answer printed, and
    so is the sequence of calls. *)
Theorem fixed_lines_independent {L1 L2 : Type}
    (lib1 : MyLib L1) (lib2 : MyLib L2)
    (a : list string) (e : list (string * string)) (i1 : L1) (i2 : L2)
    (g1 g2 : string) (m1 : L1) (m2 : L2) (n1 n2 : int) (k1 : L1) (k2 : L2) :
  @print_greeting L1 lib1 {| argv := a; environ := e |} i1 = Some (g1, m1) ->
  @print_greeting L2 lib2 {| argv := a; environ := e |} i2 = Some (g2, m2) ->
  @get_answer L1 lib1 {| argv := a; environ := e |} m1 = Some (n1, k1) ->
  @get_answer L2 lib2 {| argv := a; environ := e |} m2 = Some (n2, k2) ->
  exists r1 r2,
    returns (@run_program L1 lib1 a e i1) r1 /\
    returns (@run_program L2 lib2 a e i2) r2 /\
    output_of r1
    = ("Starting the main application." ++ nl) ++ g1
      ++ ("The retrieved answer is: " ++ Stdio.itoa n1 ++ nl) /\
    output_of r2
    = ("Starting the main application." ++ nl) ++ g2
      ++ ("The retrieved answer is: " ++ Stdio.itoa n2 ++ nl) /\
    calls_of r1
    = [ Call (inl1 (Printf ("Starting the main application." ++ nl) []));
        Call (inr1 Print_greeting);
        Call (inr1 Get_answer);
        Call (inl1 (Printf ("The retrieved answer is: %d" ++ nl) [n1])) ] /\
    calls_of r2
    = [ Call (inl1 (Printf ("Starting the main application." ++ nl) []));
        Call (inr1 Print_greeting);
        Call (inr1 Get_answer);
        Call (inl1 (Printf ("The retrieved answer is: %d" ++ nl) [n2])) ] /\
    (g1 = EmptyString ->
     output_of r1
     = ("Starting the main application." ++ nl)
       ++ ("The retrieved answer is: " ++ Stdio.itoa n1 ++ nl)).
Proof.
  intros Hg1 Hg2 Ha1 Ha2.
  exists (finished (start a e i1) g1 n1 k1, 0),
         (finished (start a e i2) g2 n2 k2, 0).
  split; [now apply (run_main_returns (start a e i1) g1 m1 n1 k1)|].
  split; [now apply (run_main_returns (start a e i2) g2 m2 n2 k2)|].
  repeat split. intros ->. reflexivity.
Qed.

Lemma fixed_lines_independent_witness :
  exists r1 r2,
    returns (@run_program Z counting_lib [] [] (-43)) r1 /\
    returns (@run_program unit lib42 [] [] tt) r2 /\
    output_of r1
    = ("Starting the main application." ++ nl) ++ EmptyString
      ++ ("The retrieved answer is: " ++ Stdio.itoa 42 ++ nl) /\
    output_of r2
    = ("Starting the main application." ++ nl) ++ ("Hello from my_lib!" ++ nl)
      ++ ("The retrieved answer is: " ++ Stdio.itoa 42 ++ nl) /\
    calls_of r1
    = [ Call (inl1 (Printf ("Starting the main application." ++ nl) []));
        Call (inr1 Print_greeting);
        Call (inr1 Get_answer);
        Call (inl1 (Printf ("The retrieved answer is: %d" ++ nl) [42])) ] /\
    calls_of r2
    = [ Call (inl1 (Printf ("Starting the main application." ++ nl) []));
        Call (inr1 Print_greeting);
        Call (inr1 Get_answer);
        Call (inl1 (Printf ("The retrieved answer is: %d" ++ nl) [42])) ] /\
    (EmptyString = EmptyString ->
     output_of r1
     = ("Starting the main application." ++ nl)
       ++ ("The retrieved answer is: " ++ Stdio.itoa 42 ++ nl)).
Proof.
  apply (@fixed_lines_independent Z unit counting_lib lib42 [] [] (-43) tt
           EmptyString ("Hello from my_lib!" ++ nl) (-42) tt 42 42 (-42) tt);
    reflexivity.
Defined.

(* ===================================================================== *)
(** * Further properties of main *)
(* ===================================================================== *)

(** X1. A run of [main] completes exactly when [print_greeting] returns
    and [get_answer], called in the state [print_greeting] left, returns
    too; its result is then fully determined: the two lines around the
    greeting appended to standard output, the four calls appended to the
    history, the library state as [get_answer] left it, exit code 0.  In
    particular [main] never completes when a library call does not return,
    and never completes with any other outcome. *)
Theorem run_main_completes_iff {L : Type} {lib : MyLib L}
    (p : process L) (r : process L * int) :
  returns (run_main p) r <->
  exists g l1 n l2,
    print_greeting (env p) (lib_state p) = Some (g, l1) /\
    get_answer (env p) l1 = Some (n, l2) /\
    r = ({| env := env p;
            stdout := stdout p ++ ("Starting the main application." ++ nl)
                      ++ g
                      ++ ("The retrieved answer is: " ++ Stdio.itoa n ++ nl);
            lib_state := l2;
            history :=
              (history p
               ++ [ Call (inl1 (Printf ("Starting the main application."
                                        ++ nl) []));
                    Call (inr1 Print_greeting);
                    Call (inr1 Get_answer);
                    Call (inl1 (Printf ("The retrieved answer is: %d" ++ nl)
                                  [n])) ])%list |}, 0).
Proof.
  split.
  - intros H. destruct (run_main_inv p r H) as (g & l1 & n & l2 & Hg & Ha & ->).
    now exists g, l1, n, l2.
  - intros (g & l1 & n & l2 & Hg & Ha & ->).
    exact (run_main_returns p g l1 n l2 Hg Ha).
Qed.

Lemma run_main_completes_iff_witness :
  (forall r, ~ returns (@run_main unit hanging_lib (start [] [] tt)) r) /\
  exists r, returns (@run_main Z counting_lib (start [] [] 4)) r.
Proof.
  split.
  - intros r H.
    apply (proj1 (@run_main_completes_iff unit hanging_lib (start [] [] tt) r))
      in H.
    destruct H as (g & l1 & n & l2 & Hg & _). discriminate Hg.
  - eexists.
    apply (proj2 (@run_main_completes_iff Z counting_lib (start [] [] 4) _)).
    exists EmptyString, 5, (-5), 5. repeat split.
Defined.

(** X2. The answer can be read back from the output of any complete run,
    whatever the greeting is: the last blank-separated field of the output,
    without its newline, reads as the integer [get_answer] returned.  A
    greeting cannot hide or forge the answer, not even one that itself
    looks like an answer line. *)
Theorem answer_read_back {L : Type} {lib : MyLib L} (p : process L)
    (g : string) (l1 : L) (n : int) (l2 : L) (r : process L * int) :
  print_greeting (env p) (lib_state p) = Some (g, l1) ->
  get_answer (env p) l1 = Some (n, l2) ->
  returns (run_main p) r ->
  answer_of_output (output_of r) = Some n.
Proof.
  intros Hg Ha Hr.
  rewrite (returns_unique _ _ _ Hr (run_main_returns p g l1 n l2 Hg Ha)).
  unfold output_of, finished. cbn [fst stdout].
  rewrite <- !append_assoc.
  apply OutputFacts.answer_of_output_answer_line.
Qed.

Lemma answer_read_back_witness :
  exists r,
    returns (@run_main unit nosy_lib
               (start ["The retrieved answer is: 7"; "-x"] [] tt)) r /\
    answer_of_output (output_of r) = Some 2.
Proof.
  eexists. split.
  - apply (@run_main_returns unit nosy_lib
             (start ["The retrieved answer is: 7"; "-x"] [] tt)
             ("The retrieved answer is: 7" ++ nl) tt 2 tt); reflexivity.
  - apply (@answer_read_back unit nosy_lib
             (start ["The retrieved answer is: 7"; "-x"] [] tt)
             ("The retrieved answer is: 7" ++ nl) tt 2 tt);
      [reflexivity | reflexivity |].
    apply (@run_main_returns unit nosy_lib
             (start ["The retrieved answer is: 7"; "-x"] [] tt)
             ("The retrieved answer is: 7" ++ nl) tt 2 tt); reflexivity.
Defined.

(** X3. [main] does not look at what printf returns or writes: whatever
    the two printf calls do, as long as they return, [main] goes on to call
    [print_greeting] and [get_answer] in this order, hands the answer to
    the second printf, and exits with code 0.  A printf that fails, writing
    nothing and returning a negative value, changes neither the calls made
    nor the exit code. *)
Theorem main_ignores_printf_result {L : Type} {lib : MyLib L}
    (pf : printf_behaviour) (p : process L)
    (w1 : string) (c1 : int) (g : string) (l1 : L) (n : int) (l2 : L)
    (w2 : string) (c2 : int) :
  pf ("Starting the main application." ++ nl) [] = Some (w1, c1) ->
  print_greeting (env p) (lib_state p) = Some (g, l1) ->
  get_answer (env p) l1 = Some (n, l2) ->
  pf ("The retrieved answer is: %d" ++ nl) [n] = Some (w2, c2) ->
  exists r,
    returns (run_main_with pf p) r /\
    exit_code_of r = 0 /\
    output_of r = stdout p ++ w1 ++ g ++ w2 /\
    lib_state (fst r) = l2 /\
    calls_of r
    = (history p
       ++ [ Call (inl1 (Printf ("Starting the main application." ++ nl) []));
            Call (inr1 Print_greeting);
            Call (inr1 Get_answer);
            Call (inl1 (Printf ("The retrieved answer is: %d" ++ nl) [n])) ])%list.
Proof.
  intros H1 Hg Ha H2. eexists. split.
  - exact (run_main_with_returns pf p w1 c1 g l1 n l2 w2 c2 H1 Hg Ha H2).
  - repeat split.
Qed.

Lemma main_ignores_printf_result_witness :
  exists r,
    returns (@run_main_with unit lib42 failing_printf (start ["./main"] [] tt))
            r /\
    exit_code_of r = 0 /\
    output_of r
    = EmptyString ++ EmptyString ++ ("Hello from my_lib!" ++ nl) ++ EmptyString /\
    lib_state (fst r) = tt /\
    calls_of r
    = ([] ++ [ Call (inl1 (Printf ("Starting the main application." ++ nl) []));
               Call (inr1 Print_greeting);
               Call (inr1 Get_answer);
               Call (inl1 (Printf ("The retrieved answer is: %d" ++ nl)
                             [42])) ])%list.
Proof.
  apply (@main_ignores_printf_result unit lib42 failing_printf
           (start ["./main"] [] tt)
           EmptyString (-1) ("Hello from my_lib!" ++ nl) tt 42 tt
           EmptyString (-1)); reflexivity.
Defined.

Example itoa_42 : Stdio.itoa 42 = "42".
Proof. reflexivity. Qed.

Example itoa_0 : Stdio.itoa 0 = "0".
Proof. reflexivity. Qed.

Example itoa_neg : Stdio.itoa (-7) = "-7".
Proof. reflexivity. Qed.

Example itoa_INT_MIN : Stdio.itoa INT_MIN = "-2147483648".
Proof. vm_compute. reflexivity. Qed.

Example itoa_INT_MAX : Stdio.itoa INT_MAX = "2147483647".
Proof. vm_compute. reflexivity. Qed.

Example itoa_1000 : Stdio.itoa 1000 = "1000".
Proof. reflexivity. Qed.

Example format_answer :
  Stdio.format ("The retrieved answer is: %d" ++ nl) [42]
  = Some ("The retrieved answer is: 42" ++ nl).
Proof. reflexivity. Qed.

(* ===================================================================== *)
(** * Runs against the example libraries *)
(* ===================================================================== *)

(** The spec's example: the answer is 42. *)
Example run_lib42 :
  option_map (fun r => (output_of r, exit_code_of r))
    (run_fuel 16 (@run_program unit lib42 ["./main"] [] tt))
  = Some (("Starting the main application." ++ nl)
          ++ ("Hello from my_lib!" ++ nl)
          ++ ("The retrieved answer is: 42" ++ nl), 0).
Proof. vm_compute. reflexivity. Qed.

(** A silent greeting and a negative answer. *)
Example run_counting_lib :
  option_map (fun r => (output_of r, lib_state (fst r)))
    (run_fuel 16 (@run_program Z counting_lib [] [] 2147483647))
  = Some (("Starting the main application." ++ nl)
          ++ ("The retrieved answer is: -2147483648" ++ nl), 2147483648).
Proof. vm_compute. reflexivity. Qed.

(** A library that looks at the arguments does tell two runs apart: the
    premise that the library behaves identically is needed. *)
Example run_nosy_lib :
  option_map output_of
    (run_fuel 16 (@run_program unit nosy_lib ["./main"] [] tt))
  <> option_map output_of
       (run_fuel 16 (@run_program unit nosy_lib ["./a.out"; "-v"] [] tt)).
Proof. vm_compute. discriminate. Qed.

(** When the greeting never returns, neither does the program: the
    premise that the library calls return is needed. *)
Example run_hanging_lib (a : list string) (e : list (string * string)) r :
  ~ returns (@run_program unit hanging_lib a e tt) r.
Proof.
  intros H. apply run_main_inv in H.
  destruct H as (g & l1 & n & l2 & Hg & _). discriminate.
Qed.

Example run_hanging_lib_fuel :
  run_fuel 1000 (@run_program unit hanging_lib [] [] tt) = None.
Proof. vm_compute. reflexivity. Qed.
